(** * tudatpy: the [astro_setup] binding of [create_transfer_trajectory]

    Embedding of
    [tudatpy/kernel/expose_simulation/expose_astro_setup.cpp].

    The file consists of one live statement,

<<
    m.def("create_transfer_trajectory",
          &tms::createTransferTrajectory,
          py::arg( "bodies" ), py::arg( "leg_settings" ),
          py::arg( "node_settings" ), py::arg( "node_names" ),
          py::arg( "central_body" ) );
>>

    so what it does is what pybind11's [module::def] does with these
    arguments, and what the function object built by that call does when
    Python calls it.  The development therefore has three layers:

    - the declarations the file takes from elsewhere (Python values, the
      C++ types of tudat, pybind11's type casters), class [External];
    - the part of pybind11 the statement goes through: [arg],
      [function_record], [cpp_function], [def] and the call [dispatcher];
    - [expose_astro_setup] itself, and the properties of the entry point
      it registers. *)

From stdpp Require Import base option list strings gmap.

Set Default Proof Using "Type".

(** ** What the file takes from outside *)

(** pybind11's [type_caster<T>::load]: conversion of a Python value to a
    C++ value of type [T]; [None] when the value does not convert. *)
Class type_caster (object T : Type) := load : object → option T.
Global Hint Mode type_caster ! ! : typeclass_instances.

(** Everything [expose_astro_setup.cpp] uses and does not define, as
    parameters: the values of Python, the types that the header
    [tudat/astro/mission_segments/createTransferTrajectory.h] (line 20)
    declares, and the casters of [pybind11/pybind11.h] and
    [pybind11/stl.h] (lines 16 and 17) for them. *)
Class External := {
  (** a Python value, [py::object] *)
  object : Type;
  (** the body container *)
  SystemOfBodies : Type;
  (** one leg setting and one node setting (held by shared pointer) *)
  TransferLegSettings : Type;
  TransferNodeSettings : Type;
  (** the transfer-trajectory object handed back by the library *)
  TransferTrajectory : Type;
  (** what native code may throw *)
  cpp_exception : Type;
  (** the items of a Python sequence; [None] for a value that is not one *)
  sequence_items : object → option (list object);
  bodies_caster :: type_caster object SystemOfBodies;
  leg_settings_caster :: type_caster object TransferLegSettings;
  node_settings_caster :: type_caster object TransferNodeSettings;
  string_caster :: type_caster object string
}.

(** [pybind11/stl.h]: a sequence converts to a [std::vector<T>] when every
    item converts to [T]. *)
Global Instance list_caster `{External} {T : Type} `{!type_caster object T} :
  type_caster object (list T) :=
  λ src, items ← sequence_items src; mapM load items.

(** [namespace tms = tudat::mission_segments]: the one native function
    the file refers to. *)
Inductive native_function : Type :=
| createTransferTrajectory.

(** Modelled from the spec: the parameter list of
    [tms::createTransferTrajectory], whose header is included by the file
    and is not part of the repository.  The spec gives the inputs, in
    this order, as a collection of bodies, a sequence of leg settings, a
    sequence of node settings, a sequence of node name identifiers and a
    central-body identifier. *)
Definition native_arguments `{External} : Type :=
  (SystemOfBodies * list TransferLegSettings * list TransferNodeSettings
   * list string * string)%type.

(** A native call either throws or returns the transfer-trajectory
    object. *)
Definition native_result `{External} : Type :=
  (cpp_exception + TransferTrajectory)%type.

(** ** Calls across the boundary *)

Inductive python_error `{External} : Type :=
| TypeError_incompatible_function_arguments
    (** raised by pybind11's dispatcher when no overload accepts the call *)
| TypeError_not_callable
| AttributeError (attr : string)
| native_exception (e : cpp_exception)
    (** an exception thrown by native code, as it reaches the caller *).

(** What a call of a bound function does, as a tree: it returns, raises,
    or invokes a native function and goes on with what that gives back.
    The native library is not part of the tree; it answers at the
    [Invoke] nodes. *)
Inductive behaviour `{External} : Type :=
| Return (r : TransferTrajectory)
| Raise (e : python_error)
| Invoke (f : native_function) (a : native_arguments)
         (k : native_result → behaviour).

(** The native library as the tree sees it: a function of the arguments
    and of the state of the world, giving a result and a new state. *)
Definition native_semantics `{External} (World : Type) : Type :=
  native_function → native_arguments → World → native_result * World.

(** Running a tree against a native library: the outcome, the final
    state and the native calls made, in order. *)
Fixpoint run `{External} {World : Type} (ext : native_semantics World)
    (b : behaviour) (w : World)
  : (python_error + TransferTrajectory) * World
    * list (native_function * native_arguments) :=
  match b with
  | Return r => (inr r, w, [])
  | Raise e => (inl e, w, [])
  | Invoke f a k =>
      let '(r, w1) := ext f a w in
      let '(o, w2, calls) := run ext (k r) w1 in
      (o, w2, (f, a) :: calls)
  end.

(** ** pybind11 *)

(** [py::arg("name")] and [py::arg("name") = value]: the name of a
    parameter and, for the second form, its default. *)
Record arg `{External} : Type := {
  arg_name : string;
  arg_value : option object
}.

Definition py_arg `{External} (name : string) : arg :=
  {| arg_name := name; arg_value := None |}.

(** [detail::function_record], the fields the dispatcher reads. *)
Record function_record `{External} : Type := {
  func_name : string;
  (** the module the function was defined in *)
  func_scope : string;
  (** one entry per [py::arg] annotation *)
  func_args : list arg;
  (** number of parameters of the C++ function *)
  func_nargs : nat;
  (** loads the arguments and calls the C++ function; [None] stands for
      [PYBIND11_TRY_NEXT_OVERLOAD] *)
  func_impl : list object → option behaviour
}.

(** An attribute of a module: a function object made by pybind11, which
    carries its chain of overloads; [None]; or an object that is not a
    function.  C functions that pybind11 did not make (builtins) are not
    represented: what the registration does over one of them differs
    between releases of pybind11. *)
Inductive attribute `{External} : Type :=
| attr_function (chain : list function_record)
| attr_none
| attr_object (o : object).

(** A module: its name, which identifies it as a scope, and its
    attributes. *)
Record module_ `{External} : Type := {
  mod_name : string;
  mod_dict : gmap string attribute
}.

(** Registration can fail with a [std::runtime_error]. *)
Inductive result (A : Type) : Type :=
| ok (a : A)
| thrown (what : string).
Global Arguments ok {A} a.
Global Arguments thrown {A} what.

(** [argument_loader<const SystemOfBodies&, const std::vector<...>&, ...>
    ::load_args]: every slot is converted by the caster of its parameter
    type. *)
Definition load_args `{External} (args : list object) : option native_arguments :=
  match args with
  | [a0; a1; a2; a3; a4] =>
      b ← load a0; l ← load a1; n ← load a2; ns ← load a3; c ← load a4;
      Some (b, l, n, ns, c)
  | _ => None
  end.

(** What the wrapper does with the result of the native call: a value is
    returned, an exception is raised to the caller. *)
Definition forward_result `{External} (r : native_result) : behaviour :=
  match r with
  | inl e => Raise (native_exception e)
  | inr t => Return t
  end.

(** The [impl] closure that the [cpp_function] constructor generates for
    a function pointer. *)
Definition cpp_function_impl `{External} (f : native_function)
  : list object → option behaviour :=
  λ args, a ← load_args args; Some (Invoke f a forward_result).

Definition native_arity (f : native_function) : nat :=
  match f with
  | createTransferTrajectory => 5
  end.

Definition starts_with_underscore (s : string) : bool :=
  match s with
  | String c _ => bool_decide (String c EmptyString = "_")
  | EmptyString => false
  end.

(** The message of the [std::runtime_error] that [pybind11_fail] throws
    from the constructor below. *)
Definition cannot_overload : string :=
  "Cannot overload existing non-function object with a function of the same name".

(** The [cpp_function] constructor as [module::def] calls it: with the
    name, the module as scope and, as sibling, the attribute the module
    has under that name so far ([None] when it has none).  A function of
    the same scope gets the new record appended to its chain of
    overloads; a function of another scope, and [None], are replaced; an
    object that is not a function makes the registration fail, unless the
    name starts with an underscore. *)
Definition cpp_function `{External} (f : native_function) (name_ : string)
    (scope_ : string) (sibling : attribute) (extra : list arg)
  : result attribute :=
  let rec :=
    {| func_name := name_; func_scope := scope_; func_args := extra;
       func_nargs := native_arity f; func_impl := cpp_function_impl f |} in
  match sibling with
  | attr_function (head :: rest) =>
      if decide (func_scope head = scope_)
      then ok (attr_function ((head :: rest) ++ [rec]))
      else ok (attr_function [rec])
  | attr_function [] => ok (attr_function [rec])
  | attr_none => ok (attr_function [rec])
  | attr_object _ =>
      if starts_with_underscore name_
      then ok (attr_function [rec])
      else thrown cannot_overload
  end.

(** [getattr(m, name, none())]. *)
Definition getattr `{External} (m : module_) (name_ : string) : attribute :=
  default attr_none (mod_dict m !! name_).

(** [module::add_object(name, obj, true)]. *)
Definition add_object `{External} (m : module_) (name_ : string)
    (obj : attribute) : module_ :=
  {| mod_name := mod_name m; mod_dict := <[name_ := obj]> (mod_dict m) |}.

(** [module::def]. *)
Definition def `{External} (m : module_) (name_ : string)
    (f : native_function) (extra : list arg) : result module_ :=
  match cpp_function f name_ (mod_name m) (getattr m name_) extra with
  | ok func => ok (add_object m name_ func)
  | thrown what => thrown what
  end.

(** *** The call dispatcher *)

(** The slots that were not given positionally are taken from the
    keywords, which are consumed, or else from the defaults; a slot with
    neither ends the attempt. *)
Fixpoint fill_keywords `{External} (slots : list arg)
    (kwargs : gmap string object) : option (list object * gmap string object) :=
  match slots with
  | [] => Some ([], kwargs)
  | slot :: slots =>
      match kwargs !! arg_name slot with
      | Some value =>
          '(values, kwargs) ← fill_keywords slots (delete (arg_name slot) kwargs);
          Some (value :: values, kwargs)
      | None =>
          match arg_value slot with
          | Some value =>
              '(values, kwargs) ← fill_keywords slots kwargs;
              Some (value :: values, kwargs)
          | None => None
          end
      end
  end.

(** Steps 1 to 4 of [cpp_function::dispatcher] for one overload: the
    positional arguments are copied, there may not be too many of them;
    the remaining slots are filled by [fill_keywords]; a keyword that is
    left over (unknown, or naming a slot already given positionally)
    rejects the call.  The result is the argument vector in positional
    order. *)
Definition bind_arguments `{External} (func : function_record)
    (args_in : list object) (kwargs_in : gmap string object)
  : option (list object) :=
  let n_args_in := length args_in in
  if decide (func_nargs func < n_args_in) then None
  else if decide (n_args_in < func_nargs func
                  ∧ length (func_args func) < func_nargs func) then None
  else
    '(values, kwargs) ← fill_keywords (drop n_args_in (func_args func)) kwargs_in;
    if decide (size kwargs = 0) then Some (args_in ++ values) else None.

(** One overload: bind, then hand the vector to [impl]. *)
Definition try_overload `{External} (func : function_record)
    (args_in : list object) (kwargs_in : gmap string object)
  : option behaviour :=
  call_args ← bind_arguments func args_in kwargs_in;
  func_impl func call_args.

(** The overloads are tried in order; the first that accepts the call
    decides; when none does, the dispatcher raises the [TypeError]
    "incompatible function arguments". *)
Fixpoint dispatcher `{External} (overloads : list function_record)
    (args_in : list object) (kwargs_in : gmap string object) : behaviour :=
  match overloads with
  | [] => Raise TypeError_incompatible_function_arguments
  | func :: overloads =>
      match try_overload func args_in kwargs_in with
      | Some b => b
      | None => dispatcher overloads args_in kwargs_in
      end
  end.

(** Python's [m.name( *args, **kwargs )]. *)
Definition call_attribute `{External} (m : module_) (name_ : string)
    (args_in : list object) (kwargs_in : gmap string object) : behaviour :=
  match mod_dict m !! name_ with
  | Some (attr_function chain) => dispatcher chain args_in kwargs_in
  | Some _ => Raise TypeError_not_callable
  | None => Raise (AttributeError name_)
  end.

(** ** [expose_astro_setup.cpp] *)

(** [void expose_astro_setup(py::module &m)], lines 30 to 54.  The module
    is passed by reference and updated in place; here the updated module
    is the result. *)
Definition expose_astro_setup `{External} (m : module_) : result module_ :=
  def m "create_transfer_trajectory"
      createTransferTrajectory
      [ py_arg "bodies";
        py_arg "leg_settings";
        py_arg "node_settings";
        py_arg "node_names";
        py_arg "central_body" ].

(** The keywords of a call that names all five parameters. *)
Definition keywords `{External} (bodies leg_settings node_settings node_names
    central_body : object) : gmap string object :=
  <["bodies" := bodies]> (<["leg_settings" := leg_settings]>
  (<["node_settings" := node_settings]> (<["node_names" := node_names]>
  (<["central_body" := central_body]> ∅)))).

(** The function record that line 45 builds in a module named [scope_]. *)
Definition entry_point `{External} (scope_ : string) : function_record :=
  {| func_name := "create_transfer_trajectory";
     func_scope := scope_;
     func_args := [ py_arg "bodies"; py_arg "leg_settings";
                    py_arg "node_settings"; py_arg "node_names";
                    py_arg "central_body" ];
     func_nargs := 5;
     func_impl := cpp_function_impl createTransferTrajectory |}.

(** The overloads that are kept when a function is defined in scope
    [scope_] over the attribute [sibling]. *)
Definition kept_overloads `{External} (scope_ : string) (sibling : attribute)
  : list function_record :=
  match sibling with
  | attr_function (head :: rest) =>
      if decide (func_scope head = scope_) then head :: rest else []
  | _ => []
  end.

(** The tuple a call hands to the native function, when it gets that
    far: the bound vector, converted. *)
Definition delivered `{External} (func : function_record)
    (args_in : list object) (kwargs_in : gmap string object)
  : option native_arguments :=
  bind_arguments func args_in kwargs_in ≫= load_args.

(** What the caller sees of a native result that is handed on as it is. *)
Definition forwarded `{External} (r : native_result)
  : python_error + TransferTrajectory :=
  match r with
  | inl e => inl (native_exception e)
  | inr t => inr t
  end.

(** *** The contract of the entry point, in the words of the spec *)

(** The keyword surface of section 6 of the spec. *)
Definition parameter_names : list string :=
  ["bodies"; "leg_settings"; "node_settings"; "node_names"; "central_body"].

(** A call matches the five parameters in arity and keywords: no more
    arguments are given positionally than there are parameters, and the
    keywords are exactly the names of the parameters that are not given
    positionally. *)
Definition matches_parameters `{External} (args_in : list object)
    (kwargs_in : gmap string object) : Prop :=
  length args_in ≤ length parameter_names
  ∧ dom kwargs_in = list_to_set (drop (length args_in) parameter_names).

Global Instance matches_parameters_dec `{External} args_in kwargs_in :
  Decision (matches_parameters args_in kwargs_in).
Proof. unfold matches_parameters. apply _. Defined.

(** The value a call supplies for the parameter at position [i], named
    [name_]: the positional argument when there is one at that position,
    the keyword argument otherwise. *)
Definition argument_for `{External} (args_in : list object)
    (kwargs_in : gmap string object) (i : nat) (name_ : string)
  : option object :=
  if decide (i < length args_in) then args_in !! i else kwargs_in !! name_.

(** ** A concrete interpreter and library, to run the model on *)

Module Sample.

#[warnings="-register-all"]
Inductive pyobj : Type :=
| PyNone
| PyInt (n : nat)
| PyStr (s : string)
| PyList (xs : list pyobj)
| PyInstance (cls : string) (id : nat).

Definition load_instance (cls : string) (o : pyobj) : option nat :=
  match o with
  | PyInstance c id => if decide (c = cls) then Some id else None
  | _ => None
  end.

Definition interpreter : External :=
  {| object := pyobj;
     SystemOfBodies := nat;
     TransferLegSettings := nat;
     TransferNodeSettings := nat;
     TransferTrajectory := nat;
     cpp_exception := string;
     sequence_items := λ o, match o with PyList xs => Some xs | _ => None end;
     bodies_caster := load_instance "SystemOfBodies";
     leg_settings_caster := load_instance "TransferLegSettings";
     node_settings_caster := load_instance "TransferNodeSettings";
     string_caster := λ o, match o with PyStr s => Some s | _ => None end |}.

(** A library that wants one node more than legs, counts its calls in the
    state and numbers the trajectories it builds. *)
Definition library : native_semantics (H := interpreter) nat :=
  λ f a w,
    let '(b, legs, nodes, names, c) := a in
    if decide (length nodes = S (length legs))
    then (inr (b + length legs), S w)
    else (inl "number of legs and nodes are incompatible", S w).

Definition astro_setup : module_ (H := interpreter) :=
  {| mod_name := "astro_setup"; mod_dict := ∅ |}.

(** A module in which the name is already taken by a string. *)
Definition taken : module_ (H := interpreter) :=
  {| mod_name := "astro_setup";
     mod_dict :=
       {[ "create_transfer_trajectory" :=
            attr_object (H := interpreter) (PyStr "taken") ]} |}.

(** A module that already defines a function of the name. *)
Definition earlier : function_record (H := interpreter) :=
  {| func_name := "create_transfer_trajectory"; func_scope := "astro_setup";
     func_args := []; func_nargs := 0; func_impl := λ _, None |}.

Definition overloaded : module_ (H := interpreter) :=
  {| mod_name := "astro_setup";
     mod_dict := {[ "create_transfer_trajectory" := attr_function [earlier] ]} |}.

(** A module that has imported a function of the name from another
    module; that function accepts any call and returns trajectory 0. *)
Definition foreign : function_record (H := interpreter) :=
  {| func_name := "create_transfer_trajectory"; func_scope := "elsewhere";
     func_args := []; func_nargs := 0;
     func_impl := λ _, Some (Return (H := interpreter) 0) |}.

Definition imported : module_ (H := interpreter) :=
  {| mod_name := "astro_setup";
     mod_dict := {[ "create_transfer_trajectory" := attr_function [foreign] ]} |}.

Definition bodies : pyobj := PyInstance "SystemOfBodies" 7.
Definition legs : pyobj :=
  PyList [PyInstance "TransferLegSettings" 1; PyInstance "TransferLegSettings" 2].
Definition nodes : pyobj :=
  PyList [PyInstance "TransferNodeSettings" 1; PyInstance "TransferNodeSettings" 2;
          PyInstance "TransferNodeSettings" 3].
Definition names : pyobj := PyList [PyStr "Earth"; PyStr "Venus"; PyStr "Mars"].
Definition centre : pyobj := PyStr "Sun".

(** One leg too many for [nodes]. *)
Definition three_legs : pyobj :=
  PyList [PyInstance "TransferLegSettings" 1; PyInstance "TransferLegSettings" 2;
          PyInstance "TransferLegSettings" 3].

(** What the five values above convert to. *)
Definition converted : native_arguments (H := interpreter) :=
  (7, [1; 2], [1; 2; 3], ["Earth"; "Venus"; "Mars"], "Sun").

End Sample.

(** ** The model at work *)

(** [create_transfer_trajectory(bodies=..., ..., central_body=...)]
    against [library]: one native call, trajectory 9, one more call
    counted. *)
Example run_keywords :
  match expose_astro_setup Sample.astro_setup with
  | ok m =>
      run Sample.library
        (call_attribute m "create_transfer_trajectory" []
           (keywords (H := Sample.interpreter) Sample.bodies Sample.legs
              Sample.nodes Sample.names Sample.centre)) 0
      = (inr 9, 1, [(createTransferTrajectory, Sample.converted)])
  | thrown _ => False
  end.
Proof. vm_compute. reflexivity. Qed.

(** Two positional arguments, three keywords, and a library that
    throws: three legs do not go with three nodes. *)
Example run_library_throws :
  match expose_astro_setup Sample.astro_setup with
  | ok m =>
      run Sample.library
        (call_attribute m "create_transfer_trajectory"
           [Sample.bodies; Sample.three_legs]
           {[ "node_settings" := Sample.nodes; "node_names" := Sample.names;
              "central_body" := Sample.centre ]}) 0
      = (inl (native_exception (H := Sample.interpreter)
                "number of legs and nodes are incompatible"), 1,
         [(createTransferTrajectory,
           (7, [1; 2; 3], [1; 2; 3], ["Earth"; "Venus"; "Mars"], "Sun")
             : native_arguments (H := Sample.interpreter))])
  | thrown _ => False
  end.
Proof. vm_compute. reflexivity. Qed.

(** A sixth positional argument, and [bodies] given twice. *)
Example run_rejected :
  match expose_astro_setup Sample.astro_setup with
  | ok m =>
      call_attribute m "create_transfer_trajectory"
        [Sample.bodies; Sample.legs; Sample.nodes; Sample.names; Sample.centre;
         Sample.PyNone] ∅
      = Raise TypeError_incompatible_function_arguments
      ∧ call_attribute m "create_transfer_trajectory"
          [Sample.bodies; Sample.legs; Sample.nodes; Sample.names; Sample.centre]
          {[ "bodies" := Sample.bodies ]}
        = Raise TypeError_incompatible_function_arguments
  | thrown _ => False
  end.
Proof. vm_compute. split; reflexivity. Qed.

(** ** Properties *)

Section properties.
Context `{External}.
Implicit Types (m : module_) (args : list object) (kwargs : gmap string object).
Implicit Types (slots : list arg) (func : function_record).

(** *** Registration *)

Lemma expose_astro_setup_eq m :
  expose_astro_setup m =
  match getattr m "create_transfer_trajectory" with
  | attr_object _ => thrown cannot_overload
  | sibling =>
      ok (add_object m "create_transfer_trajectory"
            (attr_function (kept_overloads (mod_name m) sibling
                            ++ [entry_point (mod_name m)])))
  end.
Proof.
  unfold expose_astro_setup, def, cpp_function, kept_overloads.
  destruct (getattr m "create_transfer_trajectory") as [[|head rest]| |o];
    simpl; try case_decide; reflexivity.
Qed.

Lemma expose_astro_setup_unbound m :
  mod_dict m !! "create_transfer_trajectory" = None →
  expose_astro_setup m =
  ok (add_object m "create_transfer_trajectory"
        (attr_function [entry_point (mod_name m)])).
Proof.
  intros Hm. rewrite expose_astro_setup_eq. unfold getattr. by rewrite Hm.
Qed.

Lemma expose_astro_setup_refused m o :
  mod_dict m !! "create_transfer_trajectory" = Some (attr_object o) →
  expose_astro_setup m = thrown cannot_overload.
Proof.
  intros Hm. rewrite expose_astro_setup_eq. unfold getattr. by rewrite Hm.
Qed.

(** *** Binding of arguments *)

Lemma fill_keywords_missing slots kwargs slot :
  slot ∈ slots →
  kwargs !! arg_name slot = None → arg_value slot = None →
  fill_keywords slots kwargs = None.
Proof.
  intros Hin. revert kwargs.
  induction Hin as [slot slots|slot other slots Hin IH]; intros kwargs Hk Hv; simpl.
  - by rewrite Hk, Hv.
  - destruct (kwargs !! arg_name other) eqn:Hother.
    + rewrite IH; [done| |done]. apply lookup_delete_None. by right.
    + destruct (arg_value other); [by rewrite IH|done].
Qed.

Lemma fill_keywords_required slots kwargs values rest :
  Forall (λ slot, arg_value slot = None) slots →
  fill_keywords slots kwargs = Some (values, rest) →
  Forall2 (λ slot value, kwargs !! arg_name slot = Some value) slots values
  ∧ size kwargs = length slots + size rest.
Proof.
  intros Hreq. revert kwargs values rest.
  induction Hreq as [|slot slots Hslot _ IH]; intros kwargs values rest; simpl.
  - intros [= <- <-]. split; [constructor|done].
  - destruct (kwargs !! arg_name slot) as [value|] eqn:Hk; [|by rewrite Hslot].
    destruct (fill_keywords slots (delete (arg_name slot) kwargs))
      as [[values' rest']|] eqn:Hfill; simpl; [|done].
    intros [= <- <-]. destruct (IH _ _ _ Hfill) as [Hall Hsize]. split.
    + constructor; [done|].
      eapply Forall2_impl; [exact Hall|]. simpl.
      intros s v Hs. by apply lookup_delete_Some in Hs as [_ ?].
    + rewrite map_size_delete_Some in Hsize by eauto.
      assert (size kwargs ≠ 0); [|lia].
      apply map_size_non_empty_iff. intros ->. by rewrite lookup_empty in Hk.
Qed.

Lemma fill_keywords_rest slots kwargs values rest k :
  fill_keywords slots kwargs = Some (values, rest) →
  k ∉ arg_name <$> slots →
  rest !! k = kwargs !! k.
Proof.
  revert kwargs values rest.
  induction slots as [|slot slots IH]; intros kwargs values rest; simpl.
  - by intros [= <- <-].
  - intros Hfill [Hk Hks]%not_elem_of_cons.
    destruct (kwargs !! arg_name slot) as [value|].
    + destruct (fill_keywords slots (delete (arg_name slot) kwargs))
        as [[values' rest']|] eqn:Hrest; simpl in Hfill; [|done].
      injection Hfill as <- <-.
      rewrite (IH _ _ _ Hrest Hks). by apply lookup_delete_ne.
    + destruct (arg_value slot); [|done].
      destruct (fill_keywords slots kwargs) as [[values' rest']|] eqn:Hrest;
        simpl in Hfill; [|done].
      injection Hfill as <- <-. by apply (IH _ _ _ Hrest).
Qed.

(** With no defaults and distinct names, the slots are filled and
    nothing is left over exactly when the keywords are the names of the
    slots. *)
Lemma fill_keywords_exact slots kwargs :
  Forall (λ slot, arg_value slot = None) slots →
  NoDup (arg_name <$> slots) →
  (∃ values rest, fill_keywords slots kwargs = Some (values, rest) ∧ size rest = 0)
  ↔ dom kwargs = list_to_set (arg_name <$> slots).
Proof.
  intros Hreq. revert kwargs.
  induction Hreq as [|slot slots Hslot _ IH]; intros kwargs Hnames.
  - simpl. rewrite dom_empty_iff_L. split.
    + intros (values & rest & [= <- <-] & Hsize). by apply map_size_empty_iff.
    + intros ->. by exists [], ∅.
  - rewrite fmap_cons in Hnames |- *. rewrite list_to_set_cons.
    apply NoDup_cons in Hnames as [Hfresh Hnames]. cbn [fill_keywords]. split.
    + intros (values & rest & Hfill & Hsize).
      destruct (kwargs !! arg_name slot) as [value|] eqn:Hk;
        [|by rewrite Hslot in Hfill].
      destruct (fill_keywords slots (delete (arg_name slot) kwargs))
        as [[values' rest']|] eqn:Hrest; simpl in Hfill; [|done].
      injection Hfill as <- <-.
      assert (dom (delete (arg_name slot) kwargs)
              = list_to_set (arg_name <$> slots)) as Hdom
        by (apply IH; eauto).
      rewrite dom_delete_L in Hdom. rewrite <-Hdom.
      apply elem_of_dom_2 in Hk. apply set_eq. intros k.
      rewrite elem_of_union, elem_of_singleton, elem_of_difference,
        elem_of_singleton.
      split; [|by intros [->|[? _]]].
      intros Hin. destruct (decide (k = arg_name slot)); [by left|by right].
    + intros Hdom.
      assert (arg_name slot ∈ dom kwargs) as [value Hk]%elem_of_dom.
      { rewrite Hdom. apply elem_of_union_l. by apply elem_of_singleton. }
      rewrite Hk.
      destruct (proj2 (IH (delete (arg_name slot) kwargs) Hnames))
        as (values & rest & Hfill & Hsize).
      { rewrite dom_delete_L, Hdom. apply set_eq. intros k.
        rewrite elem_of_difference, elem_of_union, elem_of_singleton,
          elem_of_list_to_set.
        split; [by intros [[?|?] ?]|].
        intros Hin. split; [by right|]. by intros ->. }
      rewrite Hfill. simpl. eauto.
Qed.

Lemma entry_point_required scope_ :
  Forall (λ slot, arg_value slot = None) (func_args (entry_point scope_)).
Proof. repeat constructor. Qed.

Lemma entry_point_names scope_ :
  arg_name <$> func_args (entry_point scope_) = parameter_names.
Proof. reflexivity. Qed.

Lemma parameter_names_NoDup : NoDup parameter_names.
Proof.
  unfold parameter_names.
  repeat (apply NoDup_cons_2;
          [rewrite ?not_elem_of_cons; repeat split; try done; apply not_elem_of_nil|]).
  apply NoDup_nil_2.
Qed.

Lemma bind_arguments_keywords scope_ (o0 o1 o2 o3 o4 : object) :
  bind_arguments (entry_point scope_) [] (keywords o0 o1 o2 o3 o4)
  = Some [o0; o1; o2; o3; o4].
Proof. reflexivity. Qed.

Lemma bind_arguments_positional scope_ (o0 o1 o2 o3 o4 : object) :
  bind_arguments (entry_point scope_) [o0; o1; o2; o3; o4] ∅
  = Some [o0; o1; o2; o3; o4].
Proof. reflexivity. Qed.

Lemma bind_arguments_unknown_keyword func args kwargs k :
  is_Some (kwargs !! k) →
  k ∉ arg_name <$> func_args func →
  bind_arguments func args kwargs = None.
Proof.
  intros [o Ho] Hk. unfold bind_arguments.
  case_decide; [done|]. case_decide; [done|].
  destruct (fill_keywords _ kwargs) as [[values rest]|] eqn:Hfill; simpl; [|done].
  case_decide as Hrest; [|done].
  apply map_size_empty_iff in Hrest as ->.
  rewrite <-(fill_keywords_rest _ _ _ _ k Hfill), lookup_empty in Ho; [done|].
  intros Hin. apply Hk.
  apply list_elem_of_fmap in Hin as (slot & -> & Hslot).
  apply list_elem_of_fmap. exists slot. split; [done|].
  apply list_elem_of_lookup in Hslot as [j Hj]. rewrite lookup_drop in Hj.
  by eapply list_elem_of_lookup_2.
Qed.

Lemma bind_arguments_missing scope_ args kwargs i name_ :
  parameter_names !! i = Some name_ →
  length args ≤ i →
  kwargs !! name_ = None →
  bind_arguments (entry_point scope_) args kwargs = None.
Proof.
  intros Hi Hlen Hk. unfold bind_arguments.
  case_decide; [done|]. case_decide; [done|].
  rewrite <-(entry_point_names scope_) in Hi.
  apply list_lookup_fmap_Some in Hi as (slot & -> & Hslot).
  rewrite (fill_keywords_missing _ _ slot); [done| |done|].
  - apply list_elem_of_lookup. exists (i - length args).
    rewrite lookup_drop. by replace (length args + (i - length args)) with i by lia.
  - by eapply (proj1 (Forall_forall _ _) (entry_point_required scope_)),
      list_elem_of_lookup_2.
Qed.

Lemma bind_arguments_supplied scope_ args kwargs call_args :
  bind_arguments (entry_point scope_) args kwargs = Some call_args →
  length args + size kwargs = 5
  ∧ length call_args = 5
  ∧ ∀ o, o ∈ call_args → o ∈ args ∨ ∃ k, kwargs !! k = Some o.
Proof.
  unfold bind_arguments. case_decide as Hmany; [done|]. case_decide; [done|].
  destruct (fill_keywords _ kwargs) as [[values rest]|] eqn:Hfill; simpl; [|done].
  case_decide as Hrest; [|done]. intros [= <-].
  apply fill_keywords_required in Hfill as [Hall Hsize];
    [|apply Forall_drop, entry_point_required].
  rewrite length_drop in Hsize. simpl in Hmany, Hsize.
  split; [lia|]. split.
  - rewrite length_app, <-(Forall2_length _ _ _ Hall), length_drop. simpl. lia.
  - intros o [Ho|Ho]%elem_of_app; [by left|right].
    apply list_elem_of_lookup in Ho as [j Hj].
    destruct (Forall2_lookup_r _ _ _ _ _ Hall Hj) as (slot & _ & Hslot). eauto.
Qed.

(** The binding step of the dispatcher accepts exactly the calls that
    match the five parameters. *)
Lemma bind_arguments_matches scope_ args kwargs :
  is_Some (bind_arguments (entry_point scope_) args kwargs)
  ↔ matches_parameters args kwargs.
Proof.
  unfold bind_arguments, matches_parameters.
  change (func_nargs (entry_point scope_)) with 5.
  change (length (func_args (entry_point scope_))) with 5.
  change (length parameter_names) with 5.
  case_decide as Hmany.
  { split; [by intros [? ?]|]. intros [? _]. lia. }
  case_decide as Hfew; [lia|].
  rewrite <-(entry_point_names scope_), <-fmap_drop.
  rewrite <-fill_keywords_exact.
  - destruct (fill_keywords _ kwargs) as [[values rest]|]; simpl.
    + case_decide as Hrest.
      * split; [intros _; split; [lia|eauto]|eauto].
      * split; [by intros [? ?]|].
        by intros (_ & ? & ? & [= <- <-] & ?).
    + split; [by intros [? ?]|]. by intros (_ & ? & ? & ? & _).
  - apply Forall_drop, entry_point_required.
  - rewrite fmap_drop, entry_point_names.
    eapply sublist_NoDup; [apply parameter_names_NoDup|apply sublist_drop].
Qed.

(** *** Calls of the registered function *)

Lemma call_entry_point m scope_ args kwargs :
  call_attribute
    (add_object m "create_transfer_trajectory" (attr_function [entry_point scope_]))
    "create_transfer_trajectory" args kwargs
  = match delivered (entry_point scope_) args kwargs with
    | Some a => Invoke createTransferTrajectory a forward_result
    | None => Raise TypeError_incompatible_function_arguments
    end.
Proof.
  unfold call_attribute, add_object. simpl. rewrite lookup_insert_eq. simpl.
  unfold try_overload, delivered. simpl.
  destruct (bind_arguments _ args kwargs) as [call_args|]; simpl; [|done].
  unfold cpp_function_impl. by destruct (load_args call_args).
Qed.

Lemma run_forward_result {World : Type} (ext : native_semantics World) f a w :
  run ext (Invoke f a forward_result) w
  = (forwarded (ext f a w).1, (ext f a w).2, [(f, a)]).
Proof. simpl. by destruct (ext f a w) as [[e|t] w1]. Qed.

(** The first step of every proof below: on a module in which the name
    is unbound, [expose_astro_setup] gives the module with the one
    function, and a call of it is decided by [delivered]. *)
Ltac exposed :=
  eexists; split; [by apply expose_astro_setup_unbound|];
  rewrite ?call_entry_point.

(** *** The entry point [create_transfer_trajectory]

    In what follows [m] is a module in which the name
    [create_transfer_trajectory] is not bound yet, and [m'] is [m] after
    [expose_astro_setup]: the attribute of that name is then the function
    of line 45 alone. *)

(** C1, amended: for five values that convert to the types of the five
    parameters, given under the keywords [bodies], [leg_settings],
    [node_settings], [node_names] and [central_body], the call invokes
    [tms::createTransferTrajectory] with the tuple of the converted
    values in that positional order, and waits for it: what the call
    gives is what that invocation gives.  Run against any library, in any
    state, the call makes exactly this one native call. *)
Theorem keyword_call_invokes_once m
    (bodies leg_settings node_settings node_names central_body : object)
    (b : SystemOfBodies) (l : list TransferLegSettings)
    (n : list TransferNodeSettings) (ns : list string) (c : string) :
  mod_dict m !! "create_transfer_trajectory" = None →
  load bodies = Some b →
  load leg_settings = Some l →
  load node_settings = Some n →
  load node_names = Some ns →
  load central_body = Some c →
  ∃ m', expose_astro_setup m = ok m'
    ∧ call_attribute m' "create_transfer_trajectory" []
        (keywords bodies leg_settings node_settings node_names central_body)
      = Invoke createTransferTrajectory (b, l, n, ns, c) forward_result
    ∧ ∀ (World : Type) (ext : native_semantics World) (w : World),
        run ext
          (call_attribute m' "create_transfer_trajectory" []
             (keywords bodies leg_settings node_settings node_names central_body))
          w
        = (forwarded (ext createTransferTrajectory (b, l, n, ns, c) w).1,
           (ext createTransferTrajectory (b, l, n, ns, c) w).2,
           [(createTransferTrajectory, (b, l, n, ns, c))]).
Proof.
  intros Hm Hb Hl Hn Hns Hc. exposed.
  unfold delivered. rewrite bind_arguments_keywords. simpl.
  rewrite Hb, Hl, Hn, Hns, Hc. simpl.
  split; [done|]. intros World ext w. apply run_forward_result.
Qed.

(** C8: the five values given positionally, in the declared order, and
    the same five values given by keyword are the same call: the same
    tree, hence against any library the same native calls with the same
    tuples, the same outcome and the same final state. *)
Theorem positional_call_is_keyword_call m (o0 o1 o2 o3 o4 : object) :
  mod_dict m !! "create_transfer_trajectory" = None →
  ∃ m', expose_astro_setup m = ok m'
    ∧ call_attribute m' "create_transfer_trajectory" [o0; o1; o2; o3; o4] ∅
      = call_attribute m' "create_transfer_trajectory" []
          (keywords o0 o1 o2 o3 o4)
    ∧ ∀ (World : Type) (ext : native_semantics World) (w : World),
        run ext
          (call_attribute m' "create_transfer_trajectory" [o0; o1; o2; o3; o4] ∅) w
        = run ext
            (call_attribute m' "create_transfer_trajectory" []
               (keywords o0 o1 o2 o3 o4)) w.
Proof.
  intros Hm. exposed. unfold delivered.
  by rewrite bind_arguments_keywords, bind_arguments_positional.
Qed.

(** C9: the five parameters are declared without default, and a call in
    which one of them is given neither positionally nor by keyword is
    rejected with the dispatcher's [TypeError], whatever else is supplied;
    no native call is made and the state is left as it was. *)
Theorem omitted_argument_is_rejected m args kwargs (i : nat) (name_ : string) :
  mod_dict m !! "create_transfer_trajectory" = None →
  ["bodies"; "leg_settings"; "node_settings"; "node_names"; "central_body"] !! i
    = Some name_ →
  length args ≤ i →
  kwargs !! name_ = None →
  ∃ m', expose_astro_setup m = ok m'
    ∧ (∃ func,
         mod_dict m' !! "create_transfer_trajectory" = Some (attr_function [func])
         ∧ Forall (λ slot, arg_value slot = None) (func_args func))
    ∧ call_attribute m' "create_transfer_trajectory" args kwargs
      = Raise TypeError_incompatible_function_arguments
    ∧ ∀ (World : Type) (ext : native_semantics World) (w : World),
        run ext (call_attribute m' "create_transfer_trajectory" args kwargs) w
        = (inl TypeError_incompatible_function_arguments, w, []).
Proof.
  intros Hm Hi Hlen Hk. exposed. split.
  { eexists. split; [apply lookup_insert_eq|apply entry_point_required]. }
  unfold delivered. by rewrite (bind_arguments_missing _ _ _ i name_).
Qed.

(** C3: the registered function has five parameters, named [bodies],
    [leg_settings], [node_settings], [node_names] and [central_body] in
    that order; the value given under the i-th name lands in the i-th
    slot, which is converted to the i-th parameter of the native function:
    the body container, the sequence of leg settings, the sequence of node
    settings, the sequence of node names and the central-body name.  The
    calls that bind are exactly those that match these five parameters
    in arity and keywords; every other call is rejected. *)
Theorem five_named_parameters m :
  mod_dict m !! "create_transfer_trajectory" = None →
  ∃ m' func, expose_astro_setup m = ok m'
    ∧ mod_dict m' !! "create_transfer_trajectory" = Some (attr_function [func])
    ∧ arg_name <$> func_args func
      = ["bodies"; "leg_settings"; "node_settings"; "node_names"; "central_body"]
    ∧ func_nargs func = 5
    ∧ (∀ o0 o1 o2 o3 o4 : object,
         bind_arguments func [] (keywords o0 o1 o2 o3 o4)
         = Some [o0; o1; o2; o3; o4])
    ∧ (∀ o0 o1 o2 o3 o4 : object,
         func_impl func [o0; o1; o2; o3; o4]
         = (b ← load (T := SystemOfBodies) o0;
            l ← load (T := list TransferLegSettings) o1;
            n ← load (T := list TransferNodeSettings) o2;
            ns ← load (T := list string) o3;
            c ← load (T := string) o4;
            Some (Invoke createTransferTrajectory (b, l, n, ns, c) forward_result)))
    ∧ (∀ args kwargs,
         is_Some (bind_arguments func args kwargs)
         ↔ matches_parameters args kwargs)
    ∧ (∀ args kwargs, ¬ matches_parameters args kwargs →
         call_attribute m' "create_transfer_trajectory" args kwargs
         = Raise TypeError_incompatible_function_arguments).
Proof.
  intros Hm. exists (add_object m "create_transfer_trajectory"
                       (attr_function [entry_point (mod_name m)])),
                    (entry_point (mod_name m)).
  split; [by apply expose_astro_setup_unbound|].
  split; [apply lookup_insert_eq|].
  do 3 (split; [done|]). split; [|split].
  - intros o0 o1 o2 o3 o4. unfold entry_point, cpp_function_impl, load_args. simpl.
    destruct (load o0) as [b|]; simpl; [|done].
    destruct (load o1) as [l|]; simpl; [|done].
    destruct (load o2) as [n|]; simpl; [|done].
    destruct (load o3) as [ns|]; simpl; [|done].
    by destruct (load o4) as [c|].
  - apply bind_arguments_matches.
  - intros args kwargs Hno. rewrite call_entry_point. unfold delivered.
    destruct (bind_arguments _ args kwargs) as [call_args|] eqn:Hbind; [|done].
    destruct Hno. apply (bind_arguments_matches (mod_name m)). by rewrite Hbind.
Qed.

(** C5: when the call gets its arguments to the native function and the
    native function returns a value, the call returns that very value;
    the final state is the one the library left and the one native call
    is the only one made. *)
Theorem returned_value_is_handed_back m args kwargs (a : native_arguments)
    {World : Type} (ext : native_semantics World) (w w' : World)
    (t : TransferTrajectory) :
  mod_dict m !! "create_transfer_trajectory" = None →
  delivered (entry_point (mod_name m)) args kwargs = Some a →
  ext createTransferTrajectory a w = (inr t, w') →
  ∃ m', expose_astro_setup m = ok m'
    ∧ run ext (call_attribute m' "create_transfer_trajectory" args kwargs) w
      = (inr t, w', [(createTransferTrajectory, a)]).
Proof.
  intros Hm Ha Hext. exposed. by rewrite Ha, run_forward_result, Hext.
Qed.

(** C7: [expose_astro_setup] binds nothing under the name of the
    disabled entry point, in the spelling [default_mga_no_dsm_settings]
    or in the spelling [defaut_mga_no_dsm_settings] of the commented
    lines 33 to 42: what the module has under these names is what it had
    before, so nothing if it had nothing; the only name added to the
    module is [create_transfer_trajectory], and the function registered
    under it rejects every call that uses one of the keywords
    [node_times], [leg_free_parameters] and [node_free_parameters]. *)
Theorem disabled_entry_point_is_absent m :
  mod_dict m !! "create_transfer_trajectory" = None →
  ∃ m', expose_astro_setup m = ok m'
    ∧ (∀ name_,
         name_ ∈ ["default_mga_no_dsm_settings"; "defaut_mga_no_dsm_settings"] →
         mod_dict m' !! name_ = mod_dict m !! name_)
    ∧ dom (mod_dict m') = {["create_transfer_trajectory"]} ∪ dom (mod_dict m)
    ∧ (∀ args kwargs k,
         k ∈ ["node_times"; "leg_free_parameters"; "node_free_parameters"] →
         is_Some (kwargs !! k) →
         call_attribute m' "create_transfer_trajectory" args kwargs
         = Raise TypeError_incompatible_function_arguments).
Proof.
  intros Hm. eexists. split; [by apply expose_astro_setup_unbound|].
  split; [|split].
  - intros name_ Hname. simpl. apply lookup_insert_ne.
    intros <-. rewrite !elem_of_cons, elem_of_nil in Hname.
    by destruct Hname as [?|[?|[]]].
  - simpl. apply dom_insert_L.
  - intros args kwargs k Hk Hsome. rewrite call_entry_point. unfold delivered.
    rewrite (bind_arguments_unknown_keyword _ _ _ k); [done..|].
    simpl. rewrite !elem_of_cons, elem_of_nil in Hk.
    rewrite !not_elem_of_cons.
    destruct Hk as [->|[->|[->|[]]]]; repeat split; try done; apply not_elem_of_nil.
Qed.

(** C2, amended: on a module in which [create_transfer_trajectory] is
    unbound, [None] or a function made by pybind11, [expose_astro_setup]
    succeeds; the attribute of that name becomes a function whose
    overloads are those the module had defined under the name, followed
    by one new record, named [create_transfer_trajectory]; the name of
    the module and every other attribute are as before. *)
Theorem expose_astro_setup_registers_one m :
  (∀ o, mod_dict m !! "create_transfer_trajectory" ≠ Some (attr_object o)) →
  ∃ m', expose_astro_setup m = ok m'
    ∧ mod_name m' = mod_name m
    ∧ mod_dict m' !! "create_transfer_trajectory"
      = Some (attr_function
                (kept_overloads (mod_name m)
                   (getattr m "create_transfer_trajectory")
                 ++ [entry_point (mod_name m)]))
    ∧ func_name (entry_point (mod_name m)) = "create_transfer_trajectory"
    ∧ (∀ k, k ≠ "create_transfer_trajectory" →
         mod_dict m' !! k = mod_dict m !! k)
    ∧ dom (mod_dict m') = {["create_transfer_trajectory"]} ∪ dom (mod_dict m).
Proof.
  intros Hm.
  exists (add_object m "create_transfer_trajectory"
            (attr_function
               (kept_overloads (mod_name m) (getattr m "create_transfer_trajectory")
                ++ [entry_point (mod_name m)]))).
  split.
  { rewrite expose_astro_setup_eq. unfold getattr in *.
    destruct (mod_dict m !! "create_transfer_trajectory") as [[chain| |o]|] eqn:Hattr;
      simpl; try done.
    by destruct (Hm o). }
  split; [done|]. split; [apply lookup_insert_eq|]. split; [done|]. split.
  - intros k Hk. simpl. by apply lookup_insert_ne.
  - simpl. apply dom_insert_L.
Qed.

(** C4, amended: the call raises the dispatcher's [TypeError] exactly
    when the arguments do not match the five parameters in arity and
    keywords, or match and one of them does not convert to the type of
    its parameter.  Run against any library, an exception of the native
    function reaches the caller as it was thrown, and an error of a call
    is either such an exception or the [TypeError], which comes with no
    native call made and the state untouched. *)
Theorem errors_of_a_call m args kwargs :
  mod_dict m !! "create_transfer_trajectory" = None →
  ∃ m', expose_astro_setup m = ok m'
    ∧ (call_attribute m' "create_transfer_trajectory" args kwargs
       = Raise TypeError_incompatible_function_arguments
       ↔ ¬ matches_parameters args kwargs
         ∨ ∃ call_args,
             bind_arguments (entry_point (mod_name m)) args kwargs = Some call_args
             ∧ load_args call_args = None)
    ∧ ∀ (World : Type) (ext : native_semantics World) (w : World),
        (∀ a e w',
           delivered (entry_point (mod_name m)) args kwargs = Some a →
           ext createTransferTrajectory a w = (inl e, w') →
           run ext (call_attribute m' "create_transfer_trajectory" args kwargs) w
           = (inl (native_exception e), w', [(createTransferTrajectory, a)]))
        ∧ (∀ err w' calls,
             run ext (call_attribute m' "create_transfer_trajectory" args kwargs) w
             = (inl err, w', calls) →
             (err = TypeError_incompatible_function_arguments
              ∧ w' = w ∧ calls = [])
             ∨ ∃ a e,
                 ext createTransferTrajectory a w = (inl e, w')
                 ∧ err = native_exception e
                 ∧ calls = [(createTransferTrajectory, a)]).
Proof.
  intros Hm. exposed. split.
  - unfold delivered.
    pose proof (bind_arguments_matches (mod_name m) args kwargs) as Hmatch.
    destruct (bind_arguments _ args kwargs) as [call_args|]; simpl.
    + destruct (load_args call_args) as [a|] eqn:Hload.
      * split; [done|]. intros [Hno|(? & [= <-] & Hnone)].
        -- destruct Hno. apply Hmatch. eauto.
        -- by rewrite Hload in Hnone.
      * split; [|done]. intros _. right. eauto.
    + split; [|done]. intros _. left. intros Hyes%Hmatch. by destruct Hyes.
  - intros World ext w. split.
    + intros a e w' -> Hext. by rewrite run_forward_result, Hext.
    + intros err w' calls.
      destruct (delivered _ args kwargs) as [a|].
      * rewrite run_forward_result.
        destruct (ext createTransferTrajectory a w) as [[e|t] w1] eqn:Hext;
          simpl; intros [= <- <- <-]. right. eauto.
      * simpl. intros [= <- <- <-]. by left.
Qed.

End properties.

(** ** The properties on the concrete interpreter *)

(** C1, as stated, fails on five values of which one does not convert:
    with a number given for [central_body] the call is rejected, and no
    native call is made where the claim has exactly one. *)
Lemma keyword_call_makes_no_native_call :
  ∃ m', expose_astro_setup Sample.astro_setup = ok m'
    ∧ run Sample.library
        (call_attribute m' "create_transfer_trajectory" []
           (keywords (H := Sample.interpreter) Sample.bodies Sample.legs
              Sample.nodes Sample.names (Sample.PyInt 3))) 0
      = (inl TypeError_incompatible_function_arguments, 0, [])
    ∧ ¬ ∃ a,
          (run Sample.library
             (call_attribute m' "create_transfer_trajectory" []
                (keywords (H := Sample.interpreter) Sample.bodies Sample.legs
                   Sample.nodes Sample.names (Sample.PyInt 3))) 0).2
          = [(createTransferTrajectory, a)].
Proof.
  eexists. split; [reflexivity|]. split; [reflexivity|].
  intros [a Ha]. discriminate Ha.
Qed.

(** C2, as stated, fails on a module in which the name is taken by an
    object that is not a function, here a string: the registration is
    refused. *)
Lemma expose_astro_setup_name_taken :
  expose_astro_setup Sample.taken = thrown cannot_overload
  ∧ ¬ ∃ m' chain,
        expose_astro_setup Sample.taken = ok m'
        ∧ mod_dict m' !! "create_transfer_trajectory" = Some (attr_function chain).
Proof.
  split; [reflexivity|]. intros (m' & chain & Hm' & _). discriminate Hm'.
Qed.

(** C4, as stated, fails on a call that names all five parameters and
    gives a string for [bodies]: arity and keywords match, and the call
    is rejected all the same, before the library is reached. *)
Lemma unconvertible_argument_is_rejected :
  ∃ m', expose_astro_setup Sample.astro_setup = ok m'
    ∧ matches_parameters (H := Sample.interpreter) []
        (keywords (H := Sample.interpreter) (Sample.PyStr "Earth")
           Sample.legs Sample.nodes Sample.names Sample.centre)
    ∧ run Sample.library
        (call_attribute m' "create_transfer_trajectory" []
           (keywords (H := Sample.interpreter) (Sample.PyStr "Earth")
              Sample.legs Sample.nodes Sample.names Sample.centre)) 0
      = (inl TypeError_incompatible_function_arguments, 0, []).
Proof.
  eexists. split; [reflexivity|]. split; [|reflexivity].
  apply (bind_arguments_matches "astro_setup"). by eexists.
Qed.

Lemma keyword_call_invokes_once_witness :
  ∃ m', expose_astro_setup Sample.astro_setup = ok m'
    ∧ call_attribute m' "create_transfer_trajectory" []
        (keywords (H := Sample.interpreter) Sample.bodies Sample.legs
           Sample.nodes Sample.names Sample.centre)
      = Invoke createTransferTrajectory Sample.converted forward_result
    ∧ ∀ (World : Type) (ext : native_semantics World) (w : World),
        run ext
          (call_attribute m' "create_transfer_trajectory" []
             (keywords (H := Sample.interpreter) Sample.bodies Sample.legs
                Sample.nodes Sample.names Sample.centre)) w
        = (forwarded (ext createTransferTrajectory Sample.converted w).1,
           (ext createTransferTrajectory Sample.converted w).2,
           [(createTransferTrajectory, Sample.converted)]).
Proof.
  apply (keyword_call_invokes_once (H := Sample.interpreter)
           Sample.astro_setup Sample.bodies Sample.legs Sample.nodes
           Sample.names Sample.centre
           7 [1; 2] [1; 2; 3] ["Earth"; "Venus"; "Mars"] "Sun");
    reflexivity.
Defined.

Lemma positional_call_is_keyword_call_witness :
  ∃ m', expose_astro_setup Sample.astro_setup = ok m'
    ∧ call_attribute m' "create_transfer_trajectory"
        [Sample.bodies; Sample.legs; Sample.nodes; Sample.names;
         Sample.centre] ∅
      = call_attribute m' "create_transfer_trajectory" []
          (keywords (H := Sample.interpreter) Sample.bodies Sample.legs
             Sample.nodes Sample.names Sample.centre)
    ∧ ∀ (World : Type) (ext : native_semantics World) (w : World),
        run ext
          (call_attribute m' "create_transfer_trajectory"
             [Sample.bodies; Sample.legs; Sample.nodes; Sample.names;
              Sample.centre] ∅) w
        = run ext
            (call_attribute m' "create_transfer_trajectory" []
               (keywords (H := Sample.interpreter) Sample.bodies Sample.legs
                  Sample.nodes Sample.names Sample.centre)) w.
Proof.
  apply (positional_call_is_keyword_call (H := Sample.interpreter)
           Sample.astro_setup Sample.bodies Sample.legs Sample.nodes
           Sample.names Sample.centre).
  reflexivity.
Defined.

(** [create_transfer_trajectory(bodies, leg_settings=legs)]: the third
    parameter is missing. *)
Lemma omitted_argument_is_rejected_witness :
  ∃ m', expose_astro_setup Sample.astro_setup = ok m'
    ∧ (∃ func,
         mod_dict m' !! "create_transfer_trajectory" = Some (attr_function [func])
         ∧ Forall (λ slot, arg_value slot = None) (func_args func))
    ∧ call_attribute m' "create_transfer_trajectory" [Sample.bodies]
        {[ "leg_settings" := Sample.legs ]}
      = Raise TypeError_incompatible_function_arguments
    ∧ ∀ (World : Type) (ext : native_semantics World) (w : World),
        run ext
          (call_attribute m' "create_transfer_trajectory" [Sample.bodies]
             {[ "leg_settings" := Sample.legs ]}) w
        = (inl TypeError_incompatible_function_arguments, w, []).
Proof.
  apply (omitted_argument_is_rejected (H := Sample.interpreter)
           Sample.astro_setup [Sample.bodies]
           {[ "leg_settings" := Sample.legs ]} 2 "node_settings").
  - reflexivity.
  - reflexivity.
  - simpl. lia.
  - reflexivity.
Defined.

(** The record registered in [astro_setup]; the values of [Sample] bind
    and convert; a call by four positions and the keyword [centre] does
    not match. *)
Lemma five_named_parameters_witness :
  ∃ m' func, expose_astro_setup Sample.astro_setup = ok m'
    ∧ mod_dict m' !! "create_transfer_trajectory" = Some (attr_function [func])
    ∧ arg_name <$> func_args func
      = ["bodies"; "leg_settings"; "node_settings"; "node_names"; "central_body"]
    ∧ func_nargs func = 5
    ∧ bind_arguments func []
        (keywords (H := Sample.interpreter) Sample.bodies Sample.legs
           Sample.nodes Sample.names Sample.centre)
      = Some [Sample.bodies; Sample.legs; Sample.nodes; Sample.names;
              Sample.centre]
    ∧ func_impl func
        [Sample.bodies; Sample.legs; Sample.nodes; Sample.names;
         Sample.centre]
      = Some (Invoke createTransferTrajectory Sample.converted forward_result)
    ∧ call_attribute m' "create_transfer_trajectory"
        [Sample.bodies; Sample.legs; Sample.nodes; Sample.names]
        {[ "centre" := Sample.centre ]}
      = Raise TypeError_incompatible_function_arguments.
Proof.
  destruct (five_named_parameters (H := Sample.interpreter) Sample.astro_setup)
    as (m' & func & Hm' & Hattr & Hnames & Hnargs & Hbind & Himpl & _ & Hno);
    [reflexivity|].
  exists m', func. do 4 (split; [assumption|]).
  split; [apply Hbind|]. split; [rewrite Himpl; reflexivity|].
  apply Hno. intros [_ Hdom]. vm_compute in Hdom. discriminate Hdom.
Defined.

(** [library] accepts two legs between three nodes and returns the
    trajectory numbered 9. *)
Lemma returned_value_is_handed_back_witness :
  delivered (entry_point "astro_setup") []
    (keywords (H := Sample.interpreter) Sample.bodies Sample.legs
       Sample.nodes Sample.names Sample.centre)
  = Some Sample.converted
  ∧ Sample.library createTransferTrajectory Sample.converted 0 = (inr 9, 1)
  ∧ ∃ m', expose_astro_setup Sample.astro_setup = ok m'
      ∧ run Sample.library
          (call_attribute m' "create_transfer_trajectory" []
             (keywords (H := Sample.interpreter) Sample.bodies Sample.legs
                Sample.nodes Sample.names Sample.centre)) 0
        = (inr 9, 1, [(createTransferTrajectory, Sample.converted)]).
Proof.
  split; [reflexivity|]. split; [reflexivity|].
  apply (returned_value_is_handed_back (H := Sample.interpreter)
           Sample.astro_setup []
           (keywords (H := Sample.interpreter) Sample.bodies Sample.legs
              Sample.nodes Sample.names Sample.centre)
           Sample.converted Sample.library 0 1 9);
    reflexivity.
Defined.

(** In the new module [astro_setup] neither spelling is bound after the
    registration. *)
Lemma disabled_entry_point_is_absent_witness :
  ∃ m', expose_astro_setup Sample.astro_setup = ok m'
    ∧ mod_dict m' !! "default_mga_no_dsm_settings" = None
    ∧ mod_dict m' !! "defaut_mga_no_dsm_settings" = None
    ∧ dom (mod_dict m') = {["create_transfer_trajectory"]}
    ∧ call_attribute m' "create_transfer_trajectory"
        [Sample.bodies; Sample.legs; Sample.nodes; Sample.names; Sample.centre]
        {[ "node_times" := Sample.PyList [] ]}
      = Raise TypeError_incompatible_function_arguments.
Proof.
  destruct (disabled_entry_point_is_absent (H := Sample.interpreter)
              Sample.astro_setup)
    as (m' & Hm' & Hnames & Hdom & Hkeywords); [reflexivity|].
  exists m'. split; [assumption|].
  split; [rewrite Hnames; [reflexivity|apply list_elem_of_here]|].
  split; [rewrite Hnames;
          [reflexivity|apply list_elem_of_further, list_elem_of_here]|].
  split; [rewrite Hdom; simpl; rewrite dom_empty_L; apply (right_id_L ∅ (∪))|].
  apply (Hkeywords _ _ "node_times"); [apply list_elem_of_here|by eexists].
Defined.

(** On a module that already defines an overload of the name, the new
    record comes after it. *)
Lemma expose_astro_setup_registers_one_witness :
  ∃ m', expose_astro_setup Sample.overloaded = ok m'
    ∧ mod_name m' = "astro_setup"
    ∧ mod_dict m' !! "create_transfer_trajectory"
      = Some (attr_function [Sample.earlier; entry_point "astro_setup"])
    ∧ func_name (entry_point (H := Sample.interpreter) "astro_setup")
      = "create_transfer_trajectory"
    ∧ (∀ k, k ≠ "create_transfer_trajectory" →
         mod_dict m' !! k = mod_dict Sample.overloaded !! k)
    ∧ dom (mod_dict m')
      = {["create_transfer_trajectory"]} ∪ dom (mod_dict Sample.overloaded).
Proof.
  apply (expose_astro_setup_registers_one (H := Sample.interpreter)
           Sample.overloaded).
  intros o Ho. vm_compute in Ho. discriminate Ho.
Defined.

(** A string given for [bodies], and three legs between three nodes,
    run against [library]. *)
Lemma errors_of_a_call_witness :
  (∃ m', expose_astro_setup Sample.astro_setup = ok m'
     ∧ call_attribute m' "create_transfer_trajectory" []
         (keywords (H := Sample.interpreter) (Sample.PyStr "Earth")
            Sample.legs Sample.nodes Sample.names Sample.centre)
       = Raise TypeError_incompatible_function_arguments)
  ∧ (∃ m', expose_astro_setup Sample.astro_setup = ok m'
       ∧ run Sample.library
           (call_attribute m' "create_transfer_trajectory" []
              (keywords (H := Sample.interpreter) Sample.bodies
                 Sample.three_legs Sample.nodes Sample.names Sample.centre)) 0
         = (inl (native_exception (H := Sample.interpreter)
                   "number of legs and nodes are incompatible"), 1,
            [(createTransferTrajectory,
              (7, [1; 2; 3], [1; 2; 3], ["Earth"; "Venus"; "Mars"], "Sun")
                : native_arguments (H := Sample.interpreter))])).
Proof.
  split.
  - destruct (errors_of_a_call (H := Sample.interpreter) Sample.astro_setup []
                (keywords (H := Sample.interpreter) (Sample.PyStr "Earth")
                   Sample.legs Sample.nodes Sample.names Sample.centre))
      as (m' & Hm' & Hraise & _); [reflexivity|].
    exists m'. split; [assumption|]. apply Hraise. right.
    eexists. split; reflexivity.
  - destruct (errors_of_a_call (H := Sample.interpreter) Sample.astro_setup []
                (keywords (H := Sample.interpreter) Sample.bodies
                   Sample.three_legs Sample.nodes Sample.names Sample.centre))
      as (m' & Hm' & _ & Hrun); [reflexivity|].
    exists m'. split; [assumption|].
    apply (proj1 (Hrun nat Sample.library 0)); reflexivity.
Defined.

(** ** Further properties of the registration and of the entry point *)

Section further_properties.
Context `{External}.
Implicit Types (m : module_) (args : list object) (kwargs : gmap string object).

(** The bound vector holds, at the position of every parameter, the
    value the call supplies for it. *)
Lemma bind_arguments_vector scope_ args kwargs call_args :
  bind_arguments (entry_point scope_) args kwargs = Some call_args →
  ∀ i name_, parameter_names !! i = Some name_ →
    call_args !! i = argument_for args kwargs i name_.
Proof.
  unfold bind_arguments. case_decide as Hmany; [done|]. case_decide; [done|].
  destruct (fill_keywords _ kwargs) as [[values rest]|] eqn:Hfill; simpl; [|done].
  case_decide as Hrest; [|done]. intros [= <-] i name_ Hi.
  apply fill_keywords_required in Hfill as [Hall _];
    [|apply Forall_drop, entry_point_required].
  unfold argument_for. case_decide as Hpos.
  - by apply lookup_app_l.
  - rewrite lookup_app_r by lia.
    rewrite <-(entry_point_names scope_) in Hi.
    apply list_lookup_fmap_Some in Hi as (slot & -> & Hslot).
    assert (drop (length args) (func_args (entry_point scope_))
              !! (i - length args) = Some slot) as Hdrop.
    { rewrite lookup_drop.
      by replace (length args + (i - length args)) with i by lia. }
    destruct (Forall2_lookup_l _ _ _ _ _ Hall Hdrop) as (value & -> & Hvalue).
    by rewrite Hvalue.
Qed.

(** X1: every call that matches the five parameters in arity and
    keywords binds, in any mix of positional and keyword arguments; the
    vector it binds has, at the position of each parameter, the value
    given for that parameter, by position or under its name; and the
    call is the native call on the conversions of that vector. *)
Theorem matching_call_delivers_by_name m args kwargs :
  mod_dict m !! "create_transfer_trajectory" = None →
  matches_parameters args kwargs →
  ∃ m' call_args, expose_astro_setup m = ok m'
    ∧ bind_arguments (entry_point (mod_name m)) args kwargs = Some call_args
    ∧ length call_args = 5
    ∧ (∀ i name_,
         ["bodies"; "leg_settings"; "node_settings"; "node_names";
          "central_body"] !! i = Some name_ →
         is_Some (call_args !! i)
         ∧ call_args !! i = argument_for args kwargs i name_)
    ∧ call_attribute m' "create_transfer_trajectory" args kwargs
      = match load_args call_args with
        | Some a => Invoke createTransferTrajectory a forward_result
        | None => Raise TypeError_incompatible_function_arguments
        end.
Proof.
  intros Hm [call_args Hbind]%(bind_arguments_matches (mod_name m)).
  eexists _, call_args. split; [by apply expose_astro_setup_unbound|].
  split; [done|].
  destruct (bind_arguments_supplied _ _ _ _ Hbind) as (_ & Hlen & _).
  split; [done|]. split.
  - intros i name_ Hi. split; [|by apply (bind_arguments_vector (mod_name m))].
    apply lookup_lt_is_Some. rewrite Hlen.
    by apply lookup_lt_Some in Hi.
  - rewrite call_entry_point. unfold delivered. by rewrite Hbind.
Qed.

(** X2: a call that gives a parameter positionally and again under its
    name is rejected with the dispatcher's [TypeError]; no native call
    is made and the state is left as it was. *)
Theorem argument_given_twice_is_rejected m args kwargs (i : nat)
    (name_ : string) :
  mod_dict m !! "create_transfer_trajectory" = None →
  ["bodies"; "leg_settings"; "node_settings"; "node_names"; "central_body"] !! i
    = Some name_ →
  i < length args →
  is_Some (kwargs !! name_) →
  ∃ m', expose_astro_setup m = ok m'
    ∧ call_attribute m' "create_transfer_trajectory" args kwargs
      = Raise TypeError_incompatible_function_arguments
    ∧ ∀ (World : Type) (ext : native_semantics World) (w : World),
        run ext (call_attribute m' "create_transfer_trajectory" args kwargs) w
        = (inl TypeError_incompatible_function_arguments, w, []).
Proof.
  intros Hm Hi Hpos Hk.
  eexists. split; [by apply expose_astro_setup_unbound|].
  rewrite call_entry_point. unfold delivered.
  destruct (bind_arguments _ args kwargs) as [call_args|] eqn:Hbind; [|done].
  exfalso.
  assert (matches_parameters args kwargs) as [_ Hdom]
    by (apply (bind_arguments_matches (mod_name m)); by rewrite Hbind).
  apply elem_of_dom in Hk. rewrite Hdom, elem_of_list_to_set in Hk.
  apply list_elem_of_lookup in Hk as [j Hj]. rewrite lookup_drop in Hj.
  pose proof (NoDup_lookup _ _ _ _ parameter_names_NoDup Hi Hj). lia.
Qed.

(** X3: registering twice is harmless.  The second
    [expose_astro_setup] succeeds and appends a second, identical
    overload; nothing else in the module changes, and every call behaves
    as it did after the first registration. *)
Theorem registering_twice_changes_no_call m :
  mod_dict m !! "create_transfer_trajectory" = None →
  ∃ m1 m2, expose_astro_setup m = ok m1
    ∧ expose_astro_setup m1 = ok m2
    ∧ mod_dict m2 !! "create_transfer_trajectory"
      = Some (attr_function [entry_point (mod_name m); entry_point (mod_name m)])
    ∧ (∀ k, k ≠ "create_transfer_trajectory" →
         mod_dict m2 !! k = mod_dict m !! k)
    ∧ ∀ args kwargs,
        call_attribute m2 "create_transfer_trajectory" args kwargs
        = call_attribute m1 "create_transfer_trajectory" args kwargs.
Proof.
  intros Hm.
  exists (add_object m "create_transfer_trajectory"
            (attr_function [entry_point (mod_name m)])),
         (add_object
            (add_object m "create_transfer_trajectory"
               (attr_function [entry_point (mod_name m)]))
            "create_transfer_trajectory"
            (attr_function [entry_point (mod_name m); entry_point (mod_name m)])).
  split; [by apply expose_astro_setup_unbound|]. split.
  { rewrite expose_astro_setup_eq. unfold getattr, add_object. simpl.
    rewrite lookup_insert_eq. simpl. by rewrite decide_True. }
  split; [apply lookup_insert_eq|]. split.
  - intros k Hk. simpl. by rewrite !lookup_insert_ne.
  - intros args kwargs. unfold call_attribute, add_object. simpl.
    rewrite !lookup_insert_eq. simpl.
    by destruct (try_overload (entry_point (mod_name m)) args kwargs).
Qed.

(** X4: where the name is bound to [None] or to a function made in
    another scope, the registration replaces that attribute: the name
    is then bound to the new function alone, the former overloads can no
    longer be reached through it, and a call is decided as in a module
    in which the name was unbound. *)
Theorem registration_replaces_foreign_function m :
  mod_dict m !! "create_transfer_trajectory" = Some attr_none
  ∨ (∃ head rest,
       mod_dict m !! "create_transfer_trajectory"
       = Some (attr_function (head :: rest))
       ∧ func_scope head ≠ mod_name m) →
  ∃ m', expose_astro_setup m = ok m'
    ∧ mod_dict m' !! "create_transfer_trajectory"
      = Some (attr_function [entry_point (mod_name m)])
    ∧ (∀ k, k ≠ "create_transfer_trajectory" →
         mod_dict m' !! k = mod_dict m !! k)
    ∧ ∀ args kwargs,
        call_attribute m' "create_transfer_trajectory" args kwargs
        = match delivered (entry_point (mod_name m)) args kwargs with
          | Some a => Invoke createTransferTrajectory a forward_result
          | None => Raise TypeError_incompatible_function_arguments
          end.
Proof.
  intros Hm.
  exists (add_object m "create_transfer_trajectory"
            (attr_function [entry_point (mod_name m)])).
  split.
  { rewrite expose_astro_setup_eq. unfold getattr.
    destruct Hm as [->|(head & rest & -> & Hscope)]; simpl; [done|].
    by rewrite decide_False. }
  split; [apply lookup_insert_eq|]. split.
  - intros k Hk. simpl. by apply lookup_insert_ne.
  - intros args kwargs. apply call_entry_point.
Qed.

(** X6: in any mix of positional and keyword arguments that matches
    the five parameters, the native function receives, parameter by
    parameter, the conversion of the value given for that parameter: if
    the values given for [bodies], [leg_settings], [node_settings],
    [node_names] and [central_body] convert to [b], [l], [n], [ns] and
    [c], the call is the one native call on [(b, l, n, ns, c)]. *)
Theorem mixed_call_invokes_once m args kwargs
    (b : SystemOfBodies) (l : list TransferLegSettings)
    (n : list TransferNodeSettings) (ns : list string) (c : string) :
  mod_dict m !! "create_transfer_trajectory" = None →
  matches_parameters args kwargs →
  argument_for args kwargs 0 "bodies" ≫= load = Some b →
  argument_for args kwargs 1 "leg_settings" ≫= load = Some l →
  argument_for args kwargs 2 "node_settings" ≫= load = Some n →
  argument_for args kwargs 3 "node_names" ≫= load = Some ns →
  argument_for args kwargs 4 "central_body" ≫= load = Some c →
  ∃ m', expose_astro_setup m = ok m'
    ∧ call_attribute m' "create_transfer_trajectory" args kwargs
      = Invoke createTransferTrajectory (b, l, n, ns, c) forward_result
    ∧ ∀ (World : Type) (ext : native_semantics World) (w : World),
        run ext (call_attribute m' "create_transfer_trajectory" args kwargs) w
        = (forwarded (ext createTransferTrajectory (b, l, n, ns, c) w).1,
           (ext createTransferTrajectory (b, l, n, ns, c) w).2,
           [(createTransferTrajectory, (b, l, n, ns, c))]).
Proof.
  intros Hm [call_args Hbind]%(bind_arguments_matches (mod_name m))
    Hb Hl Hn Hns Hc.
  eexists. split; [by apply expose_astro_setup_unbound|].
  rewrite call_entry_point. unfold delivered. rewrite Hbind. simpl.
  pose proof (bind_arguments_vector _ _ _ _ Hbind) as Hvec.
  destruct (bind_arguments_supplied _ _ _ _ Hbind) as (_ & Hlen & _).
  destruct call_args as [|o0 [|o1 [|o2 [|o3 [|o4 [|]]]]]]; try done.
  rewrite <-(Hvec 0 "bodies" eq_refl) in Hb.
  rewrite <-(Hvec 1 "leg_settings" eq_refl) in Hl.
  rewrite <-(Hvec 2 "node_settings" eq_refl) in Hn.
  rewrite <-(Hvec 3 "node_names" eq_refl) in Hns.
  rewrite <-(Hvec 4 "central_body" eq_refl) in Hc.
  simpl in Hb, Hl, Hn, Hns, Hc. simpl.
  rewrite Hb, Hl, Hn, Hns, Hc. simpl.
  split; [done|]. intros World ext w. apply run_forward_result.
Qed.

End further_properties.

(** ** The further properties on the concrete interpreter *)

(** [create_transfer_trajectory(bodies, legs, node_settings=...,
    node_names=..., central_body=...)]. *)
Lemma matching_call_delivers_by_name_witness :
  ∃ m' call_args, expose_astro_setup Sample.astro_setup = ok m'
    ∧ bind_arguments (entry_point (H := Sample.interpreter) "astro_setup")
        [Sample.bodies; Sample.legs]
        {[ "node_settings" := Sample.nodes; "node_names" := Sample.names;
           "central_body" := Sample.centre ]}
      = Some call_args
    ∧ length call_args = 5
    ∧ (∀ i name_,
         ["bodies"; "leg_settings"; "node_settings"; "node_names";
          "central_body"] !! i = Some name_ →
         is_Some (call_args !! i)
         ∧ call_args !! i
           = argument_for (H := Sample.interpreter)
               [Sample.bodies; Sample.legs]
               {[ "node_settings" := Sample.nodes; "node_names" := Sample.names;
                  "central_body" := Sample.centre ]} i name_)
    ∧ call_attribute m' "create_transfer_trajectory"
        [Sample.bodies; Sample.legs]
        {[ "node_settings" := Sample.nodes; "node_names" := Sample.names;
           "central_body" := Sample.centre ]}
      = match load_args call_args with
        | Some a => Invoke createTransferTrajectory a forward_result
        | None => Raise TypeError_incompatible_function_arguments
        end.
Proof.
  apply (matching_call_delivers_by_name (H := Sample.interpreter)
           Sample.astro_setup [Sample.bodies; Sample.legs]
           {[ "node_settings" := Sample.nodes; "node_names" := Sample.names;
              "central_body" := Sample.centre ]}).
  - reflexivity.
  - split; [simpl; lia|reflexivity].
Defined.

(** [create_transfer_trajectory(bodies, legs, nodes, names, centre,
    bodies=bodies)]. *)
Lemma argument_given_twice_is_rejected_witness :
  ∃ m', expose_astro_setup Sample.astro_setup = ok m'
    ∧ call_attribute m' "create_transfer_trajectory"
        [Sample.bodies; Sample.legs; Sample.nodes; Sample.names; Sample.centre]
        {[ "bodies" := Sample.bodies ]}
      = Raise TypeError_incompatible_function_arguments
    ∧ ∀ (World : Type) (ext : native_semantics World) (w : World),
        run ext
          (call_attribute m' "create_transfer_trajectory"
             [Sample.bodies; Sample.legs; Sample.nodes; Sample.names;
              Sample.centre]
             {[ "bodies" := Sample.bodies ]}) w
        = (inl TypeError_incompatible_function_arguments, w, []).
Proof.
  apply (argument_given_twice_is_rejected (H := Sample.interpreter)
           Sample.astro_setup
           [Sample.bodies; Sample.legs; Sample.nodes; Sample.names;
            Sample.centre]
           {[ "bodies" := Sample.bodies ]} 0 "bodies").
  - reflexivity.
  - reflexivity.
  - simpl. lia.
  - by eexists.
Defined.

Lemma registering_twice_changes_no_call_witness :
  ∃ m1 m2, expose_astro_setup Sample.astro_setup = ok m1
    ∧ expose_astro_setup m1 = ok m2
    ∧ mod_dict m2 !! "create_transfer_trajectory"
      = Some (attr_function [entry_point "astro_setup"; entry_point "astro_setup"])
    ∧ (∀ k, k ≠ "create_transfer_trajectory" →
         mod_dict m2 !! k = mod_dict Sample.astro_setup !! k)
    ∧ ∀ args kwargs,
        call_attribute m2 "create_transfer_trajectory" args kwargs
        = call_attribute m1 "create_transfer_trajectory" args kwargs.
Proof.
  apply (registering_twice_changes_no_call (H := Sample.interpreter)
           Sample.astro_setup).
  reflexivity.
Defined.

(** The imported function accepted every call; after the registration
    a call without arguments is rejected. *)
Lemma registration_replaces_foreign_function_witness :
  call_attribute Sample.imported "create_transfer_trajectory" [] ∅
  = Return (H := Sample.interpreter) 0
  ∧ ∃ m', expose_astro_setup Sample.imported = ok m'
      ∧ mod_dict m' !! "create_transfer_trajectory"
        = Some (attr_function [entry_point "astro_setup"])
      ∧ call_attribute m' "create_transfer_trajectory" [] ∅
        = Raise TypeError_incompatible_function_arguments.
Proof.
  split; [reflexivity|].
  destruct (registration_replaces_foreign_function (H := Sample.interpreter)
              Sample.imported)
    as (m' & Hm' & Hattr & _ & Hcall).
  { right. exists Sample.foreign, []. split; [reflexivity|]. simpl. discriminate. }
  exists m'. split; [assumption|]. split; [assumption|].
  rewrite Hcall. reflexivity.
Defined.

(** [create_transfer_trajectory(bodies, legs, nodes, node_names=...,
    central_body=...)]. *)
Lemma mixed_call_invokes_once_witness :
  ∃ m', expose_astro_setup Sample.astro_setup = ok m'
    ∧ call_attribute m' "create_transfer_trajectory"
        [Sample.bodies; Sample.legs; Sample.nodes]
        {[ "node_names" := Sample.names; "central_body" := Sample.centre ]}
      = Invoke createTransferTrajectory Sample.converted forward_result
    ∧ ∀ (World : Type) (ext : native_semantics World) (w : World),
        run ext
          (call_attribute m' "create_transfer_trajectory"
             [Sample.bodies; Sample.legs; Sample.nodes]
             {[ "node_names" := Sample.names; "central_body" := Sample.centre ]})
          w
        = (forwarded (ext createTransferTrajectory Sample.converted w).1,
           (ext createTransferTrajectory Sample.converted w).2,
           [(createTransferTrajectory, Sample.converted)]).
Proof.
  apply (mixed_call_invokes_once (H := Sample.interpreter)
           Sample.astro_setup [Sample.bodies; Sample.legs; Sample.nodes]
           {[ "node_names" := Sample.names; "central_body" := Sample.centre ]}
           7 [1; 2] [1; 2; 3] ["Earth"; "Venus"; "Mars"] "Sun").
  - reflexivity.
  - split; [simpl; lia|reflexivity].
  - reflexivity.
  - reflexivity.
  - reflexivity.
  - reflexivity.
  - reflexivity.
Defined.
